(** * Selection cuts and category variables of the 1muNp analysis

    A shallow embedding of [include/cuts.h] (namespace [cuts]) and of the
    category variables of [include/variables.h] (namespace [vars]).

    Conventions of the embedding.
    - A C++ [double] is a binary64 primitive float; comparisons are the
      IEEE ones (false as soon as one side is NaN), literals are rounded
      to the nearest binary64 value exactly as the C++ compiler does.
    - Signed integer fields ([pid], [nu_id], [current_type], [pdg_code],
      [interaction_mode]) are [Z].  The unqualified call [abs(...)] is the
      [int abs(int)] of the C library: its argument is converted to [int]
      ([to_int]) and it is undefined on the least [int] ([abs_int]).
    - A [uint32_t] counter is a [Z] kept in [0, 2^32) by [wrap32].
    - [std::vector<uint32_t>] is a [list Z]; [operator[]] outside the
      vector is undefined behaviour in C++, which the embedding reports
      as [None].  Every function that indexes a vector therefore lives in
      the [option] monad, and the C++ [&&] keeps its left-to-right
      short-circuit evaluation ([and_then]).
    - The template parameter (truth or reconstructed record) is the
      explicit argument [v : variant]. *)

From Stdlib Require Import ZArith Bool String DecimalString Lia.
From Stdlib Require Import Floats.PrimFloat Floats.SpecFloat Floats.FloatOps.
From Stdlib Require Import Floats.FloatAxioms.
From Stdlib Require Import Ascii DecimalN.
From stdpp Require Import base option list.

Local Open Scope Z_scope.

(* Decimal literals such as 143.425 denote the nearest binary64 value. *)
#[local] Set Warnings "-inexact-float".

(** ** Data model *)

(** The two instantiations of the templates: [caf::SR...TruthDLPProxy]
    and [caf::SR...DLPProxy]. *)
Inductive variant : Set := Truth | Reco.

(** The fields of a particle record that the cuts read. *)
Record particle : Set := mkParticle {
  is_primary : bool;
  pid : Z;
  csda_ke : float;
  calo_ke : float;
  energy_deposit : float
}.

(** [vertex] is a fixed array of three coordinates, read at the constant
    indices 0, 1 and 2 only. *)
Record vec3 : Set := mkVec3 { v0 : float; v1 : float; v2 : float }.

(** The fields of an interaction record that the cuts and the category
    variables read. *)
Record interaction : Set := mkInteraction {
  particles : list particle;
  match_ids : list Z;
  vertex : vec3;
  is_fiducial : bool;
  is_contained : bool;
  flash_time : float;
  is_flash_matched : bool;
  nu_id : Z;
  current_type : Z;
  pdg_code : Z;
  interaction_mode : Z
}.

(** Modelled from the spec: the declaration of the record type is not part
    of the sources; the data model gives the type code of a particle as
    the enumeration Photon=0, Electron=1, Muon=2, Pion=3, Proton=4,
    Other=5. *)
Definition valid_type_code (p : particle) : Prop := 0 <= pid p <= 5.

(** The kinetic energy of a particle as the energy model words it:
    the deposited energy for a truth record; for a reconstructed record the
    calorimetric estimate for a type code below 2 and the range-based
    estimate otherwise. *)
Definition kinetic_energy (v : variant) (p : particle) : float :=
  match v with
  | Truth => energy_deposit p
  | Reco => if pid p <? 2 then calo_ke p else csda_ke p
  end.

(** ** Numeric helpers *)

(** [x > y] and [x >= y], [x < y], [x <= y] on doubles. *)
Definition dgt (x y : float) : bool := PrimFloat.ltb y x.
Definition dge (x y : float) : bool := PrimFloat.leb y x.
Definition dlt (x y : float) : bool := PrimFloat.ltb x y.
Definition dle (x y : float) : bool := PrimFloat.leb x y.

(** Arithmetic of [uint32_t]. *)
Definition wrap32 (z : Z) : Z := z mod 2 ^ 32.

(** Conversion of a wider signed integer to [int]: the value modulo 2^32
    that lies in [-2^31, 2^31).  It changes nothing on a value that is an
    [int] already. *)
Definition to_int (z : Z) : Z := (z + 2 ^ 31) mod 2 ^ 32 - 2 ^ 31.

(** [int abs(int)] of the C library, which the unqualified call [abs(...)]
    of the sources resolves to: undefined on the least [int]. *)
Definition abs_int (n : Z) : option Z :=
  if n =? - 2 ^ 31 then None else Some (Z.abs n).

(** [operator<<] on an unsigned counter: its decimal digits. *)
Definition show_uint (z : Z) : string :=
  NilZero.string_of_uint (N.to_uint (Z.to_N z)).

(** ** Vector access *)

(** An [int64_t] used as a subscript is converted to [size_t]: a negative
    value becomes larger than any vector. *)
Definition subscript (idx : Z) : option nat :=
  if idx <? 0 then None else Some (Z.to_nat idx).

(** [++counts[idx]] *)
Definition increment (counts : list Z) (idx : Z) : option (list Z) :=
  n ← subscript idx;
  c ← counts !! n;
  Some (<[n := wrap32 (c + 1)]> counts).

(** [a && b] on computations that may leave the vector: [b] is evaluated
    only when [a] is true. *)
Definition and_then (a b : option bool) : option bool :=
  match a with
  | Some true => b
  | Some false => Some false
  | None => None
  end.

Infix "&&&" := and_then (at level 40, left associativity).

(** [c[k] == n], [c[k] >= n] and [c[k] > n] *)
Definition at_eq (c : list Z) (k : nat) (n : Z) : option bool :=
  x ← c !! k; Some (x =? n).
Definition at_ge (c : list Z) (k : nat) (n : Z) : option bool :=
  x ← c !! k; Some (x >=? n).
Definition at_gt (c : list Z) (k : nat) (n : Z) : option bool :=
  x ← c !! k; Some (x >? n).

(** The five conditions on the counters of photons, electrons, muons,
    pions and protons that the documentation of the topological cut
    lists. *)
Definition five_conditions (ph e mu pi pr : Z) : bool :=
  (ph =? 0) && (e =? 0) && (mu =? 1) && (pi =? 0) && (pr >=? 1).

(** ** Namespace [cuts] *)

Module cuts.

Definition matched (i : interaction) : bool :=
  (0 <? length (match_ids i))%nat.

Definition valid_flashmatch (i : interaction) : bool :=
  negb (PrimFloat.is_nan (flash_time i)) && is_flash_matched i.

Definition final_state_signal (v : variant) (p : particle) : bool :=
  if is_primary p then
    let energy := if pid p >? 1 then csda_ke p else calo_ke p in
    let energy := match v with Truth => energy_deposit p | Reco => energy end in
    (pid p =? 2) && dgt energy 143.425
    || negb (pid p =? 2) && (pid p <? 4) && dgt energy 25
    || (pid p =? 4) && dgt energy 50
  else false.

(** The loop of [count_primaries] over the particles, threading the
    vector of counters. *)
Fixpoint count_loop (v : variant) (ps : list particle) (counts : list Z)
  : option (list Z) :=
  match ps with
  | [] => Some counts
  | p :: rest =>
      if final_state_signal v p
      then counts' ← increment counts (pid p); count_loop v rest counts'
      else count_loop v rest counts
  end.

Definition count_primaries (v : variant) (i : interaction) : option (list Z) :=
  count_loop v (particles i) (replicate 5 0).

Definition topology (v : variant) (i : interaction) : option string :=
  counts ← count_primaries v i;
  c0 ← counts !! 0%nat;
  c1 ← counts !! 1%nat;
  c2 ← counts !! 2%nat;
  c3 ← counts !! 3%nat;
  c4 ← counts !! 4%nat;
  Some (show_uint c0 ++ "ph" ++ show_uint c1 ++ "e" ++ show_uint c2 ++ "mu"
        ++ show_uint c3 ++ "pi" ++ show_uint c4 ++ "p")%string.

Definition topological_1muNp_cut (v : variant) (i : interaction) : option bool :=
  c ← count_primaries v i;
  at_eq c 0 0 &&& at_eq c 1 0 &&& at_eq c 2 1 &&& at_eq c 3 0
    &&& at_ge c 4 1 &&& at_eq c 5 0.

Definition fiducial_cut (i : interaction) : bool :=
  is_fiducial i
  && negb (dgt (v0 (vertex i)) 210.215 && dgt (v1 (vertex i)) 60
           && (dgt (v2 (vertex i)) 290 && dlt (v2 (vertex i)) 390)).

Definition containment_cut (i : interaction) : bool := is_contained i.

Definition flash_cut_bnb (i : interaction) : bool :=
  if negb (valid_flashmatch i) then false
  else dge (flash_time i) 0 && dle (flash_time i) 1.6.

Definition flash_cut_numi (i : interaction) : bool :=
  if negb (valid_flashmatch i) then false
  else dge (flash_time i) 0 && dle (flash_time i) 9.6.

Definition all_1muNp_cut (v : variant) (i : interaction) : option bool :=
  topological_1muNp_cut v i &&& Some (fiducial_cut i)
    &&& Some (containment_cut i) &&& Some (flash_cut_numi i).

Definition neutrino (i : interaction) : bool := nu_id i >? -1.

Definition cosmic (i : interaction) : bool := nu_id i =? -1.

Definition signal_1muNp (v : variant) (i : interaction) : option bool :=
  topological_1muNp_cut v i &&& Some (neutrino i).

Definition other_nu_1muNp (v : variant) (i : interaction) : option bool :=
  (negb <$> topological_1muNp_cut v i) &&& Some (neutrino i).

Definition matched_neutrino (i : interaction) : bool :=
  (0 <? length (match_ids i))%nat && neutrino i.

Definition matched_cosmic (i : interaction) : bool :=
  (0 <? length (match_ids i))%nat && cosmic i.

End cuts.

(** ** Namespace [vars] *)

Module vars.

(** The category labels are small integers that the source returns as a
    [double]; the embedding keeps the integer. *)
Definition category (v : variant) (i : interaction) : option Z :=
  match cuts.signal_1muNp v i with
  | None => None
  | Some true =>
      Some (if cuts.fiducial_cut i && cuts.containment_cut i then 0 else 1)
  | Some false =>
      match cuts.other_nu_1muNp v i with
      | None => None
      | Some true => Some 2
      | Some false => Some 3
      end
  end.

(** The chain of [if]/[else if] on the pion and proton counters, entered
    once the photon, electron and muon counters read 0, 0 and 1. *)
Definition topology_branches (i : interaction) (counts : list Z) : option Z :=
  b1 ← at_eq counts 3 0 &&& at_eq counts 4 1
         &&& Some (is_contained i) &&& Some (is_fiducial i);
  if b1 : bool then Some 2 else
  b2 ← at_eq counts 3 0 &&& at_eq counts 4 1;
  if b2 : bool then Some 7 else
  b3 ← at_eq counts 3 0 &&& at_eq counts 4 0;
  if b3 : bool then Some 4 else
  b4 ← at_eq counts 3 0 &&& at_gt counts 4 1
         &&& Some (is_contained i) &&& Some (is_fiducial i);
  if b4 : bool then Some 2 else
  b5 ← at_eq counts 3 0 &&& at_gt counts 4 1;
  if b5 : bool then Some 7 else
  b6 ← at_eq counts 3 1 &&& at_eq counts 4 1;
  if b6 : bool then Some 4 else
  if current_type i =? 0 then Some 4 else Some 6.

Definition category_topology (v : variant) (i : interaction) : option Z :=
  if nu_id i >=? 0 then
    counts ← cuts.count_primaries v i;
    pre ← at_eq counts 0 0 &&& at_eq counts 1 0 &&& at_eq counts 2 1;
    if pre : bool then topology_branches i counts
    else if current_type i =? 0 then Some 4
    else if current_type i =? 1 then Some 5
    else Some 6
  else Some 6.

(** [abs(interaction.pdg_code)] is the call [abs_int] on the field
    converted to [int]; it is evaluated for a charged-current neutrino
    interaction only. *)
Definition category_interaction_mode (i : interaction) : option Z :=
  if nu_id i >? -1 then
    if current_type i =? 0 then
      a ← abs_int (to_int (pdg_code i));
      if a =? 14 then
        if interaction_mode i =? 0 then Some 0
        else if interaction_mode i =? 1 then Some 1
        else if interaction_mode i =? 10 then Some 2
        else if interaction_mode i =? 2 then Some 3
        else if interaction_mode i =? 3 then Some 4
        else Some 8
      else Some 5
    else Some 6
  else Some 7.

(** The rest masses that [visible_energy] adds, in MeV. *)
Definition MUON_MASS : float := 105.6583745.
Definition PION_MASS : float := 139.57039.

(** One turn of the loop of [visible_energy] on the running sum. *)
Definition visible_energy_step (v : variant) (energy : float) (p : particle)
  : float :=
  if is_primary p then
    let energy :=
      match v with
      | Truth => (energy + energy_deposit p)%float
      | Reco => if pid p <? 2 then (energy + calo_ke p)%float
                else (energy + csda_ke p)%float
      end in
    if pid p =? 2 then (energy + MUON_MASS)%float
    else if pid p =? 3 then (energy + PION_MASS)%float
    else energy
  else energy.

Definition visible_energy (v : variant) (i : interaction) : float :=
  foldl (visible_energy_step v) 0%float (particles i).

End vars.

(** ** Sample records *)

Module samples.

(** A primary particle of type code [code] whose three energy fields all
    hold [e]. *)
Definition primary (code : Z) (e : float) : particle :=
  mkParticle true code e e e.

Definition origin : vec3 := mkVec3 0 0 0.

(** One primary muon of 200 and two primary protons of 60 and 90,
    fiducial, contained, vertex at the origin, flash matched at time 1,
    a charged-current muon-neutrino quasi-elastic interaction. *)
Definition one_mu_two_p : interaction :=
  mkInteraction [primary 2 200; primary 4 60; primary 4 90] []
                origin true true 1 true 0 0 14 0.

(** The same interaction outside the fiducial volume. *)
Definition one_mu_two_p_not_fiducial : interaction :=
  mkInteraction [primary 2 200; primary 4 60; primary 4 90] []
                origin false true 1 true 0 0 14 0.

(** An interaction without particles and with [nu_id = -2]. *)
Definition empty_unlabelled : interaction :=
  mkInteraction [] [] origin true true 1 true (-2) 0 14 0.

(** One primary muon of 200 and one primary particle of type Other. *)
Definition one_mu_one_other : interaction :=
  mkInteraction [primary 2 200; primary 5 300] []
                origin true true 1 true 0 0 14 0.



(** The same with the least [int] as [pdg_code]. *)
Definition least_pdg_code : interaction :=
  mkInteraction [] [] origin true true 1 true 0 0 (-2147483648) 0.

(** The particles of [one_mu_two_p] in another order. *)
Definition two_p_one_mu : interaction :=
  mkInteraction [primary 4 60; primary 2 200; primary 4 90] []
                origin true true 1 true 0 0 14 0.

End samples.

(** ** Notions used to state the properties *)

(** The number of particles of [ps] that pass the particle-level cut and
    carry the type code [k]. *)
Definition tally (v : variant) (k : Z) (ps : list particle) : Z :=
  Z.of_nat (length (filter
    (fun p => cuts.final_state_signal v p = true /\ pid p = k) ps)).

(** The characters ["0"] to ["9"], and the strings made of them only. *)
Definition is_digit (a : ascii) : bool :=
  (48 <=? nat_of_ascii a)%nat && (nat_of_ascii a <=? 57)%nat.

Fixpoint all_digits (s : string) : bool :=
  match s with
  | EmptyString => true
  | String a rest => is_digit a && all_digits rest
  end.

(** The running sum of [visible_energy] written with the kinetic energy of
    the energy model and the rest mass of the type code. *)
Definition add_rest_mass (code : Z) (energy : float) : float :=
  if code =? 2 then (energy + vars.MUON_MASS)%float
  else if code =? 3 then (energy + vars.PION_MASS)%float
  else energy.

(** * Properties *)

(** ** The vector of counters *)

Section Counters.

Lemma increment_length (counts counts' : list Z) (idx : Z) :
  increment counts idx = Some counts' -> length counts' = length counts.
Proof.
  unfold increment. intros H.
  destruct (subscript idx) as [n|]; simpl in H; [|discriminate].
  destruct (counts !! n) as [c|]; simpl in H; [|discriminate].
  injection H as <-. apply length_insert.
Qed.

Lemma increment_in_range (counts : list Z) (idx : Z) :
  0 <= idx < Z.of_nat (length counts) -> is_Some (increment counts idx).
Proof.
  intros [Hlo Hhi]. unfold increment, subscript.
  destruct (Z.ltb_spec idx 0); [lia|]. simpl.
  destruct (lookup_lt_is_Some_2 counts (Z.to_nat idx)) as [c Hc]; [lia|].
  rewrite Hc. simpl. eauto.
Qed.

Lemma increment_out_of_range (counts : list Z) (idx : Z) :
  idx < 0 \/ Z.of_nat (length counts) <= idx -> increment counts idx = None.
Proof.
  intros Hout. unfold increment, subscript.
  destruct (Z.ltb_spec idx 0); [reflexivity|]. simpl.
  rewrite (lookup_ge_None_2 counts (Z.to_nat idx)); [reflexivity | lia].
Qed.

Lemma count_loop_length (v : variant) (ps : list particle) :
  forall counts counts' : list Z,
    cuts.count_loop v ps counts = Some counts' ->
    length counts' = length counts.
Proof.
  induction ps as [|p rest IH]; intros counts counts' H; simpl in H.
  - by injection H as <-.
  - destruct (cuts.final_state_signal v p); [|by apply IH].
    destruct (increment counts (pid p)) as [c1|] eqn:Hinc; simpl in H;
      [|discriminate].
    rewrite (IH _ _ H). by apply increment_length with (idx := pid p).
Qed.

Lemma count_primaries_length (v : variant) (i : interaction) (c : list Z) :
  cuts.count_primaries v i = Some c -> length c = 5%nat.
Proof. intros H. by apply count_loop_length in H. Qed.

Lemma five_counters (c : list Z) :
  length c = 5%nat -> exists ph e mu pi pr : Z, c = [ph; e; mu; pi; pr].
Proof.
  destruct c as [|ph [|e [|mu [|pi [|pr [|x c]]]]]]; try discriminate.
  intros _. by exists ph, e, mu, pi, pr.
Qed.

End Counters.

(** ** The particle-level cut *)

Section ParticleCut.

Variable v : variant.

(** A particle that passes has a type code of at most 4. *)
Lemma final_state_signal_code_le_4 (p : particle) :
  cuts.final_state_signal v p = true -> pid p <= 4.
Proof.
  unfold cuts.final_state_signal.
  destruct (is_primary p); [|discriminate].
  destruct (Z.eqb_spec (pid p) 2) as [E2|E2],
    (Z.ltb_spec (pid p) 4) as [L4|L4],
    (Z.eqb_spec (pid p) 4) as [E4|E4]; simpl; intros Hf; try lia;
    rewrite ?andb_false_r in Hf; discriminate.
Qed.

(** The lower bound is a property of the data, not of the cut: a primary
    particle with a negative type code and an energy above 25 passes. *)
Lemma final_state_signal_negative_code :
  cuts.final_state_signal v (samples.primary (-1) 30) = true.
Proof. by destruct v. Qed.

Lemma count_loop_in_bounds (ps : list particle) :
  Forall valid_type_code ps ->
  forall counts : list Z, length counts = 5%nat ->
    is_Some (cuts.count_loop v ps counts).
Proof.
  induction 1 as [|p rest Hp _ IH]; intros counts Hlen; simpl; [eauto|].
  destruct (cuts.final_state_signal v p) eqn:Hfss; [|by apply IH].
  apply final_state_signal_code_le_4 in Hfss.
  destruct (increment_in_range counts (pid p)) as [c1 Hc1].
  { unfold valid_type_code in Hp. lia. }
  rewrite Hc1. simpl. apply IH.
  apply increment_length in Hc1. congruence.
Qed.

(** The count is defined exactly when every particle that passes the cut
    has a type code that is a subscript of the vector of counters. *)
Lemma count_loop_defined_iff (ps : list particle) :
  forall counts : list Z,
    is_Some (cuts.count_loop v ps counts) <->
    Forall (fun p => cuts.final_state_signal v p = true ->
                     0 <= pid p < Z.of_nat (length counts)) ps.
Proof.
  induction ps as [|p rest IH]; intros counts; simpl.
  - split; [constructor | eauto].
  - destruct (cuts.final_state_signal v p) eqn:Hf.
    + destruct (decide (0 <= pid p < Z.of_nat (length counts))) as [Hin|Hout].
      * destruct (increment_in_range counts (pid p) Hin) as [c1 Hc1].
        rewrite Hc1. simpl. rewrite IH.
        rewrite (increment_length _ _ _ Hc1).
        split; [by constructor | by inversion 1].
      * rewrite increment_out_of_range by lia. simpl. split.
        -- by intros [? ?].
        -- inversion 1 as [|? ? Hp]. by specialize (Hp Hf).
    + rewrite IH. split; [|by inversion 1].
      intros Hrest. constructor; [congruence | exact Hrest].
Qed.

End ParticleCut.

(** ** Claims on the particle-level cut and the counters *)

Section ParticleClaims.

Implicit Types (v : variant) (p : particle) (i : interaction).

(** The local variable [energy] of the cut is the kinetic energy of the
    energy model. *)
Lemma final_state_signal_unfold v p :
  cuts.final_state_signal v p =
    is_primary p
    && ((pid p =? 2) && dgt (kinetic_energy v p) 143.425
        || negb (pid p =? 2) && (pid p <? 4) && dgt (kinetic_energy v p) 25
        || (pid p =? 4) && dgt (kinetic_energy v p) 50).
Proof.
  unfold cuts.final_state_signal, kinetic_energy.
  destruct (is_primary p); [simpl|reflexivity].
  destruct v; [reflexivity|].
  rewrite Z.gtb_ltb.
  destruct (Z.ltb_spec 1 (pid p)), (Z.ltb_spec (pid p) 2);
    first [lia | reflexivity].
Qed.

(** C4.  For a particle whose type code is not negative (the codes of the
    data model are 0 to 5), the cut holds exactly when the particle is
    primary and is a muon above 143.425, a photon, electron or pion above
    25, or a proton above 50, all comparisons strict and the energy being
    the kinetic energy of the record variant.  A primary muon at exactly
    143.425 fails, and a particle of type Other never passes. *)
Theorem final_state_signal_iff v p (Hcode : 0 <= pid p) :
  (cuts.final_state_signal v p = true <->
     is_primary p = true /\
     (pid p = 2 /\ dgt (kinetic_energy v p) 143.425 = true
      \/ (pid p = 0 \/ pid p = 1 \/ pid p = 3)
         /\ dgt (kinetic_energy v p) 25 = true
      \/ pid p = 4 /\ dgt (kinetic_energy v p) 50 = true))
  /\ (is_primary p = true -> pid p = 2 ->
      kinetic_energy v p = 143.425%float ->
      cuts.final_state_signal v p = false)
  /\ (pid p = 5 -> cuts.final_state_signal v p = false).
Proof.
  rewrite final_state_signal_unfold. split; [split|split].
  - intros H. apply andb_prop in H as [-> H]. split; [reflexivity|].
    destruct (Z.eqb_spec (pid p) 2) as [E2|E2],
      (Z.ltb_spec (pid p) 4) as [L4|L4],
      (Z.eqb_spec (pid p) 4) as [E4|E4]; simpl in H;
      try discriminate; try lia; rewrite ?orb_false_r in H.
    + by left.
    + right; left. split; [lia | assumption].
    + right; right. by split.
  - intros [-> [[-> H]|[[Hc H]|[-> H]]]]; simpl.
    + by rewrite H.
    + destruct (Z.eqb_spec (pid p) 2) as [E2|E2],
        (Z.ltb_spec (pid p) 4) as [L4|L4]; try lia.
      simpl. by rewrite H.
    + by rewrite H.
  - intros -> -> ->. reflexivity.
  - intros ->. simpl. apply andb_false_r.
Qed.

Lemma final_state_signal_iff_witness :
  0 <= pid (samples.primary 2 200)
  /\ cuts.final_state_signal Reco (samples.primary 2 200) = true.
Proof.
  assert (Hcode : 0 <= pid (samples.primary 2 200)) by (simpl; lia).
  split; [exact Hcode|].
  apply (proj1 (final_state_signal_iff Reco (samples.primary 2 200) Hcode)).
  split; [reflexivity|]. left. split; reflexivity.
Defined.

(** The threshold of the muon is strict on both variants. *)
Example muon_threshold v :
  cuts.final_state_signal v (samples.primary 2 143.425) = false
  /\ cuts.final_state_signal v (samples.primary 2 143.426) = true.
Proof. by destruct v. Qed.

(** C10.  When every particle of the interaction has a type code in 0..5,
    [count_primaries] returns a vector of exactly five counters without
    leaving it, because a particle that passes the cut has a type code in
    0..4 and a particle of code 5 and above never passes. *)
Theorem count_primaries_in_bounds v i
    (Hcodes : Forall valid_type_code (particles i)) :
  (exists counts : list Z,
      cuts.count_primaries v i = Some counts /\ length counts = 5%nat)
  /\ Forall (fun p => cuts.final_state_signal v p = true -> 0 <= pid p <= 4)
            (particles i)
  /\ (forall p, 5 <= pid p -> cuts.final_state_signal v p = false).
Proof.
  repeat split.
  - destruct (count_loop_in_bounds v (particles i) Hcodes (replicate 5 0))
      as [counts Hc]; [reflexivity|].
    exists counts. split; [exact Hc|].
    by apply count_primaries_length with (v := v) (i := i).
  - eapply Forall_impl; [exact Hcodes|].
    intros p [Hlo _] Hf. apply final_state_signal_code_le_4 in Hf. lia.
  - intros p Hp. destruct (cuts.final_state_signal v p) eqn:Hf; [|reflexivity].
    apply final_state_signal_code_le_4 in Hf. lia.
Qed.

Lemma count_primaries_in_bounds_witness :
  exists counts : list Z,
    cuts.count_primaries Reco samples.one_mu_one_other = Some counts
    /\ length counts = 5%nat.
Proof.
  apply (count_primaries_in_bounds Reco samples.one_mu_one_other).
  repeat constructor; simpl; lia.
Defined.

(** Outside the type codes of the data model the increment does leave the
    vector: a passing particle of code -1 makes the count undefined. *)
Example count_primaries_negative_code v :
  cuts.count_primaries v
    (mkInteraction [samples.primary (-1) 30] [] samples.origin
                   true true 1 true 0 0 14 0) = None.
Proof. by destruct v. Qed.

End ParticleClaims.

(** ** The topological cut and the cuts built on it *)

Section TopologicalCut.

Implicit Types (v : variant) (i : interaction).

(** The sixth operand [c[5] == 0] reads past the five counters, and it
    is evaluated exactly when the five conditions before it hold. *)
Lemma topological_1muNp_cut_outcome v i (ph e mu pi pr : Z) :
  cuts.count_primaries v i = Some [ph; e; mu; pi; pr] ->
  cuts.topological_1muNp_cut v i =
    if five_conditions ph e mu pi pr then None else Some false.
Proof.
  intros Hc. unfold cuts.topological_1muNp_cut, five_conditions.
  rewrite Hc. simpl. unfold at_eq, at_ge. simpl.
  destruct (ph =? 0); [|reflexivity].
  destruct (e =? 0); [|reflexivity].
  destruct (mu =? 1); [|reflexivity].
  destruct (pi =? 0); [|reflexivity].
  destruct (pr >=? 1); reflexivity.
Qed.

Lemma topological_1muNp_cut_never_true v i :
  cuts.topological_1muNp_cut v i <> Some true.
Proof.
  destruct (cuts.count_primaries v i) as [c|] eqn:Hc.
  - destruct (five_counters c (count_primaries_length v i c Hc))
      as (ph & e & mu & pi & pr & ->).
    rewrite (topological_1muNp_cut_outcome v i _ _ _ _ _ Hc).
    by destruct (five_conditions ph e mu pi pr).
  - unfold cuts.topological_1muNp_cut. by rewrite Hc.
Qed.

Lemma and_then_true (a b : option bool) :
  a &&& b = Some true -> a = Some true /\ b = Some true.
Proof. by destruct a as [[]|]. Qed.

Lemma all_1muNp_cut_never_true v i : cuts.all_1muNp_cut v i <> Some true.
Proof.
  unfold cuts.all_1muNp_cut. intros H.
  repeat (apply and_then_true in H as [H _]).
  by apply topological_1muNp_cut_never_true in H.
Qed.

Lemma signal_1muNp_never_true v i : cuts.signal_1muNp v i <> Some true.
Proof.
  unfold cuts.signal_1muNp. intros H.
  apply and_then_true in H as [H _].
  by apply topological_1muNp_cut_never_true in H.
Qed.

(** Whenever the topological cut returns, the combined cut is the
    conjunction of the four sub-cuts. *)
Lemma all_1muNp_cut_conjunction v i (t : bool) :
  cuts.topological_1muNp_cut v i = Some t ->
  cuts.all_1muNp_cut v i =
    Some (t && cuts.fiducial_cut i && cuts.containment_cut i
          && cuts.flash_cut_numi i).
Proof.
  intros Ht. unfold cuts.all_1muNp_cut. rewrite Ht.
  destruct t; [|reflexivity]. simpl.
  destruct (cuts.fiducial_cut i); [|reflexivity]. simpl.
  by destruct (cuts.containment_cut i).
Qed.

(** C1.  On the interaction with one muon of 200 and two protons of 60
    and 90 the counters are 0, 0, 1, 0, 2: the five conditions hold, and
    the cut does not return true but reads the sixth element of the
    five counters. *)
Theorem topological_1muNp_cut_sixth_counter v :
  cuts.count_primaries v samples.one_mu_two_p = Some [0; 0; 1; 0; 2]
  /\ five_conditions 0 0 1 0 2 = true
  /\ [0; 0; 1; 0; 2] !! 5%nat = None
  /\ cuts.topological_1muNp_cut v samples.one_mu_two_p = None.
Proof. by destruct v. Qed.

(** C2.  The cuts that go through the topological cut are not total: on
    the same interaction each of them leaves the vector of counters,
    while the cuts that read record fields only return a value. *)
Theorem interaction_cuts_leave_counters v :
  cuts.topological_1muNp_cut v samples.one_mu_two_p = None
  /\ cuts.all_1muNp_cut v samples.one_mu_two_p = None
  /\ cuts.signal_1muNp v samples.one_mu_two_p = None
  /\ cuts.other_nu_1muNp v samples.one_mu_two_p = None
  /\ cuts.fiducial_cut samples.one_mu_two_p = true
  /\ cuts.containment_cut samples.one_mu_two_p = true
  /\ cuts.flash_cut_numi samples.one_mu_two_p = true
  /\ cuts.flash_cut_bnb samples.one_mu_two_p = true
  /\ cuts.valid_flashmatch samples.one_mu_two_p = true
  /\ cuts.neutrino samples.one_mu_two_p = true
  /\ cuts.cosmic samples.one_mu_two_p = false
  /\ cuts.matched samples.one_mu_two_p = false.
Proof. by destruct v. Qed.

(** C5.  The interaction that meets all four sub-conditions does not pass
    the combined cut, and the one that differs from it in the fiducial
    flag only does not fail it: in both the topological operand, which
    is evaluated first, leaves the vector of counters. *)
Theorem all_1muNp_cut_isolation_fails v :
  (cuts.count_primaries v samples.one_mu_two_p = Some [0; 0; 1; 0; 2]
   /\ cuts.fiducial_cut samples.one_mu_two_p = true
   /\ cuts.containment_cut samples.one_mu_two_p = true
   /\ cuts.flash_cut_numi samples.one_mu_two_p = true
   /\ cuts.all_1muNp_cut v samples.one_mu_two_p = None)
  /\ (cuts.count_primaries v samples.one_mu_two_p_not_fiducial
        = Some [0; 0; 1; 0; 2]
      /\ cuts.fiducial_cut samples.one_mu_two_p_not_fiducial = false
      /\ cuts.containment_cut samples.one_mu_two_p_not_fiducial = true
      /\ cuts.flash_cut_numi samples.one_mu_two_p_not_fiducial = true
      /\ cuts.all_1muNp_cut v samples.one_mu_two_p_not_fiducial = None).
Proof. by destruct v. Qed.

(** The flash operand of the combined cut is the NuMI window. *)
Lemma flash_cut_numi_window i :
  cuts.flash_cut_numi i =
    negb (PrimFloat.is_nan (flash_time i)) && is_flash_matched i
    && (dge (flash_time i) 0 && dle (flash_time i) 9.6).
Proof.
  unfold cuts.flash_cut_numi, cuts.valid_flashmatch.
  by destruct (negb (PrimFloat.is_nan (flash_time i)) && is_flash_matched i).
Qed.

End TopologicalCut.

(** ** The topology label *)

Section TopologyLabel.

Implicit Types (v : variant) (i : interaction).

(** C8.  The label is made of the five counters of [count_primaries], in
    the order photon, electron, muon, pion, proton, each in decimal and
    followed by its separator, and of nothing else; it is undefined only
    when the count itself is.  Counters 0, 0, 1, 0, 2 give
    ["0ph0e1mu0pi2p"]. *)
Theorem topology_label_format v i :
  match cuts.count_primaries v i with
  | Some counts =>
      exists ph e mu pi pr : Z,
        counts = [ph; e; mu; pi; pr]
        /\ cuts.topology v i =
             Some (show_uint ph ++ "ph" ++ show_uint e ++ "e"
                   ++ show_uint mu ++ "mu" ++ show_uint pi ++ "pi"
                   ++ show_uint pr ++ "p")%string
  | None => cuts.topology v i = None
  end
  /\ (cuts.count_primaries v i = Some [0; 0; 1; 0; 2] ->
      cuts.topology v i = Some "0ph0e1mu0pi2p"%string).
Proof.
  split.
  - destruct (cuts.count_primaries v i) as [c|] eqn:Hc.
    + destruct (five_counters c (count_primaries_length v i c Hc))
        as (ph & e & mu & pi & pr & ->).
      exists ph, e, mu, pi, pr. split; [reflexivity|].
      unfold cuts.topology. by rewrite Hc.
    + unfold cuts.topology. by rewrite Hc.
  - intros Hc. unfold cuts.topology. by rewrite Hc.
Qed.

Lemma topology_label_format_witness :
  cuts.topology Reco samples.one_mu_two_p = Some "0ph0e1mu0pi2p"%string.
Proof.
  apply (proj2 (topology_label_format Reco samples.one_mu_two_p)).
  reflexivity.
Defined.

(** The counters are printed in full, whatever their number of digits. *)
Example show_uint_digits :
  show_uint 0 = "0"%string /\ show_uint 12 = "12"%string
  /\ show_uint 4294967295 = "4294967295"%string.
Proof. by repeat split. Qed.

End TopologyLabel.

(** ** The category variables *)

Section Categories.

Implicit Types (v : variant) (i : interaction).

(** Whenever the two classification cuts return, the coarse category is
    the one the priority order describes. *)
Lemma category_when_cuts_return v i (s o : bool) :
  cuts.signal_1muNp v i = Some s ->
  cuts.other_nu_1muNp v i = Some o ->
  vars.category v i =
    Some (if s
          then if cuts.fiducial_cut i && cuts.containment_cut i then 0 else 1
          else if o then 2 else 3).
Proof.
  intros Hs Ho. unfold vars.category. rewrite Hs, Ho.
  by destruct s, o.
Qed.

(** The labels 0 and 1 need the signal cut to return true, which it never
    does: the coarse category only ever returns 2 or 3. *)
Lemma category_returns_2_or_3 v i (k : Z) :
  vars.category v i = Some k -> k = 2 \/ k = 3.
Proof.
  unfold vars.category.
  destruct (cuts.signal_1muNp v i) as [[]|] eqn:Hs; [|intros H|discriminate].
  - by apply signal_1muNp_never_true in Hs.
  - destruct (cuts.other_nu_1muNp v i) as [[]|]; inversion H; auto.
Qed.

(** C3.  On the interaction with one muon of 200 and two protons of 60 and
    90, a neutrino interaction that is fiducial and contained, the coarse
    category is expected to be 0; the signal cut leaves the vector of
    counters there, and the category returns no label. *)
Theorem category_undefined_on_signal v :
  cuts.count_primaries v samples.one_mu_two_p = Some [0; 0; 1; 0; 2]
  /\ cuts.neutrino samples.one_mu_two_p = true
  /\ cuts.fiducial_cut samples.one_mu_two_p = true
  /\ cuts.containment_cut samples.one_mu_two_p = true
  /\ cuts.signal_1muNp v samples.one_mu_two_p = None
  /\ vars.category v samples.one_mu_two_p = None.
Proof. by destruct v. Qed.


(** For every interaction with [nu_id] below -1 the two origin cuts are
    false, and the coarse category is 3 on all counters but those that
    meet the five conditions, where it returns no label. *)
Lemma unlabelled_origin_category v i (ph e mu pi pr : Z) :
  nu_id i < -1 ->
  cuts.count_primaries v i = Some [ph; e; mu; pi; pr] ->
  cuts.neutrino i = false /\ cuts.cosmic i = false
  /\ vars.category v i
     = if five_conditions ph e mu pi pr then None else Some 3.
Proof.
  intros Hnu Hc.
  assert (Hn : cuts.neutrino i = false).
  { unfold cuts.neutrino. rewrite Z.gtb_ltb. apply Z.ltb_ge. lia. }
  split; [exact Hn|]. split.
  - unfold cuts.cosmic. apply Z.eqb_neq. lia.
  - unfold vars.category, cuts.signal_1muNp, cuts.other_nu_1muNp.
    rewrite (topological_1muNp_cut_outcome v i _ _ _ _ _ Hc), Hn.
    by destruct (five_conditions ph e mu pi pr).
Qed.

(** With [nu_id] below -1 the two cuts of C9 return false as soon as the
    five conditions of the topological cut do not all hold. *)
Lemma unlabelled_origin_cuts v i (ph e mu pi pr : Z) :
  nu_id i < -1 ->
  cuts.count_primaries v i = Some [ph; e; mu; pi; pr] ->
  five_conditions ph e mu pi pr = false ->
  cuts.signal_1muNp v i = Some false
  /\ cuts.other_nu_1muNp v i = Some false.
Proof.
  intros Hnu Hc H5. unfold cuts.signal_1muNp, cuts.other_nu_1muNp.
  rewrite (topological_1muNp_cut_outcome v i _ _ _ _ _ Hc), H5. simpl.
  unfold cuts.neutrino. rewrite Z.gtb_ltb.
  by destruct (Z.ltb_spec (-1) (nu_id i)); [lia|].
Qed.

End Categories.

Section FinerCategories.

Implicit Types (v : variant) (i : interaction).

(** The topology category once the five counters are known. *)
Lemma category_topology_counters v i (ph e mu pi pr : Z) :
  0 <= nu_id i ->
  cuts.count_primaries v i = Some [ph; e; mu; pi; pr] ->
  vars.category_topology v i =
    if (ph =? 0) && (e =? 0) && (mu =? 1)
    then vars.topology_branches i [ph; e; mu; pi; pr]
    else if current_type i =? 0 then Some 4
    else if current_type i =? 1 then Some 5
    else Some 6.
Proof.
  intros Hnu Hc. unfold vars.category_topology. rewrite Hc.
  rewrite Z.geb_leb. destruct (Z.leb_spec 0 (nu_id i)); [|lia].
  simpl. unfold at_eq. simpl.
  destruct (ph =? 0); [|reflexivity].
  destruct (e =? 0); [|reflexivity].
  by destruct (mu =? 1).
Qed.

(** C6.  With [nu_id] not negative and counters reading no photon, no
    electron and one muon: no pion and one proton or more gives 2 when the
    interaction is contained and fiducial and 7 otherwise, the same for
    exactly one proton as for several; no pion and no proton gives 4; one
    pion and one proton gives 4.  When the counters of photons, electrons
    and muons read otherwise, a charged-current interaction gives 4 and a
    neutral-current one 5.  With a negative [nu_id] the label is 6. *)
Theorem category_topology_labels v i :
  (nu_id i < 0 -> vars.category_topology v i = Some 6)
  /\ (forall ph e mu pi pr : Z,
        0 <= nu_id i ->
        cuts.count_primaries v i = Some [ph; e; mu; pi; pr] ->
        (ph = 0 -> e = 0 -> mu = 1 ->
           (pi = 0 -> 1 <= pr ->
              vars.category_topology v i =
                Some (if is_contained i && is_fiducial i then 2 else 7))
           /\ (pi = 0 -> pr = 0 -> vars.category_topology v i = Some 4)
           /\ (pi = 1 -> pr = 1 -> vars.category_topology v i = Some 4))
        /\ (~ (ph = 0 /\ e = 0 /\ mu = 1) ->
              (current_type i = 0 -> vars.category_topology v i = Some 4)
              /\ (current_type i = 1 -> vars.category_topology v i = Some 5))).
Proof.
  split.
  - intros Hnu. unfold vars.category_topology.
    rewrite Z.geb_leb. by destruct (Z.leb_spec 0 (nu_id i)); [lia|].
  - intros ph e mu pi pr Hnu Hc.
    rewrite (category_topology_counters v i _ _ _ _ _ Hnu Hc).
    split.
    + intros -> -> ->. simpl.
      unfold vars.topology_branches, at_eq, at_gt. simpl.
      split; [|split].
      * intros -> Hpr. simpl.
        destruct (Z.eqb_spec pr 1) as [E1|E1]; simpl.
        -- by destruct (is_contained i), (is_fiducial i).
        -- destruct (Z.eqb_spec pr 0) as [E0|E0]; [lia|]. simpl.
           rewrite Z.gtb_ltb. destruct (Z.ltb_spec 1 pr); [simpl|lia].
           by destruct (is_contained i), (is_fiducial i).
      * by intros -> ->.
      * by intros -> ->.
    + intros Hpre.
      assert (Hb : (ph =? 0) && (e =? 0) && (mu =? 1) = false).
      { apply not_true_is_false. intros Hb.
        apply andb_prop in Hb as [Hb Hmu]. apply andb_prop in Hb as [Hph He].
        apply Hpre. lia. }
      rewrite Hb. by split; intros ->.
Qed.

Lemma category_topology_labels_witness :
  vars.category_topology Truth samples.one_mu_two_p = Some 2.
Proof.
  refine (proj1 (proj1 (proj2 (category_topology_labels Truth samples.one_mu_two_p)
                          0 0 1 0 2 _ _) _ _ _) _ _);
    first [reflexivity | simpl; lia].
Defined.

Lemma to_int_small (z : Z) : - 2 ^ 31 <= z < 2 ^ 31 -> to_int z = z.
Proof. intros Hz. unfold to_int. rewrite Z.mod_small; lia. Qed.

Lemma abs_int_to_int (z : Z) :
  - 2 ^ 31 < z < 2 ^ 31 -> abs_int (to_int z) = Some (Z.abs z).
Proof.
  intros Hz. rewrite to_int_small by lia. unfold abs_int.
  by destruct (Z.eqb_spec z (- 2 ^ 31)); [lia|].
Qed.


(** On the least [int] the call of [abs] is undefined. *)
Example category_interaction_mode_least_pdg_code :
  vars.category_interaction_mode samples.least_pdg_code = None.
Proof. reflexivity. Qed.

(** X20.  The generator-mode category is 7 when [nu_id] is at most -1.
    Otherwise a charged-current interaction of a muon neutrino or
    antineutrino maps the generator modes 0, 1, 10, 2, 3 to 0, 1, 2, 3, 4
    and every other mode to 8; a charged-current interaction of another
    flavour whose code lies strictly between -2^31 and 2^31 gives 5; a
    neutral-current interaction gives 6. *)
Theorem category_interaction_mode_labels i :
  (nu_id i <= -1 -> vars.category_interaction_mode i = Some 7)
  /\ (-1 < nu_id i ->
      (current_type i = 0 -> Z.abs (pdg_code i) = 14 ->
         (interaction_mode i = 0 -> vars.category_interaction_mode i = Some 0)
         /\ (interaction_mode i = 1 -> vars.category_interaction_mode i = Some 1)
         /\ (interaction_mode i = 10 -> vars.category_interaction_mode i = Some 2)
         /\ (interaction_mode i = 2 -> vars.category_interaction_mode i = Some 3)
         /\ (interaction_mode i = 3 -> vars.category_interaction_mode i = Some 4)
         /\ (interaction_mode i <> 0 -> interaction_mode i <> 1 ->
             interaction_mode i <> 10 -> interaction_mode i <> 2 ->
             interaction_mode i <> 3 ->
             vars.category_interaction_mode i = Some 8))
      /\ (current_type i = 0 -> Z.abs (pdg_code i) <> 14 ->
          - 2 ^ 31 < pdg_code i < 2 ^ 31 ->
          vars.category_interaction_mode i = Some 5)
      /\ (current_type i = 1 -> vars.category_interaction_mode i = Some 6)).
Proof.
  unfold vars.category_interaction_mode. rewrite Z.gtb_ltb.
  split; [|split; [|split]].
  - intros Hnu. by destruct (Z.ltb_spec (-1) (nu_id i)); [lia|].
  - intros Hcc Hpdg. rewrite Hcc.
    rewrite abs_int_to_int by lia. rewrite Hpdg.
    destruct (Z.ltb_spec (-1) (nu_id i)); [simpl|lia].
    repeat split; try (by intros ->).
    intros N0 N1 N10 N2 N3.
    repeat match goal with
      | |- context [?a =? ?b] => destruct (Z.eqb_spec a b); [contradiction|]
      end.
    reflexivity.
  - intros Hcc Hpdg Hint. rewrite Hcc.
    rewrite abs_int_to_int by lia.
    destruct (Z.ltb_spec (-1) (nu_id i)); [simpl|lia].
    by destruct (Z.eqb_spec (Z.abs (pdg_code i)) 14).
  - intros Hnc. rewrite Hnc.
    by destruct (Z.ltb_spec (-1) (nu_id i)); [|lia].
Qed.

Lemma category_interaction_mode_labels_witness :
  vars.category_interaction_mode samples.one_mu_two_p = Some 0
  /\ vars.category_interaction_mode samples.empty_unlabelled = Some 7.
Proof.
  split.
  - refine (proj1 (proj1 (proj2 (category_interaction_mode_labels
                                   samples.one_mu_two_p) _) _ _) _);
      first [reflexivity | simpl; lia].
  - apply (proj1 (category_interaction_mode_labels samples.empty_unlabelled)).
    simpl. lia.
Defined.

End FinerCategories.

(** * Further properties of the counters *)

Section CounterValues.

Implicit Types (v : variant) (i : interaction) (p : particle).

Lemma wrap32_succ (c t : Z) : wrap32 (wrap32 (c + 1) + t) = wrap32 (c + (1 + t)).
Proof.
  unfold wrap32. rewrite Z.add_mod_idemp_l by lia. f_equal. lia.
Qed.

Lemma tally_cons v (k : Z) p (ps : list particle) :
  tally v k (p :: ps) =
    (if cuts.final_state_signal v p && (pid p =? k) then 1 else 0)
    + tally v k ps.
Proof.
  unfold tally. rewrite filter_cons.
  destruct (cuts.final_state_signal v p) eqn:Hf,
    (Z.eqb_spec (pid p) k) as [E|E]; simpl;
    try case_decide; simpl length; try lia; naive_solver.
Qed.

Lemma tally_nonneg v (k : Z) (ps : list particle) : 0 <= tally v k ps.
Proof. unfold tally. lia. Qed.

Lemma increment_lookup (counts counts' : list Z) (idx : Z) (k : nat) :
  increment counts idx = Some counts' ->
  counts' !! k =
    (fun c => if idx =? Z.of_nat k then wrap32 (c + 1) else c) <$> counts !! k.
Proof.
  unfold increment, subscript.
  destruct (Z.ltb_spec idx 0) as [Hneg|Hpos]; [discriminate|]. simpl.
  destruct (counts !! Z.to_nat idx) as [c|] eqn:Hc; [|discriminate]. simpl.
  intros [= <-].
  destruct (Z.eqb_spec idx (Z.of_nat k)) as [E|E].
  - replace (Z.to_nat idx) with k in * by lia.
    rewrite list_lookup_insert_eq by (by apply lookup_lt_Some with (x := c)).
    by rewrite Hc.
  - rewrite list_lookup_insert_ne by lia.
    by destruct (counts !! k).
Qed.

(** Each counter grows by the number of passing particles of its type
    code, in the arithmetic of [uint32_t]. *)
Lemma count_loop_lookup v (ps : list particle) (k : nat) :
  forall counts counts' : list Z,
    cuts.count_loop v ps counts = Some counts' ->
    wrap32 <$> counts' !! k =
      (fun c => wrap32 (c + tally v (Z.of_nat k) ps)) <$> counts !! k.
Proof.
  induction ps as [|p rest IH]; intros counts counts' H; simpl in H.
  - injection H as <-. destruct (counts !! k) as [c|]; simpl; [|done].
    unfold tally. simpl. by rewrite Z.add_0_r.
  - rewrite tally_cons.
    destruct (cuts.final_state_signal v p) eqn:Hf; simpl.
    + destruct (increment counts (pid p)) as [c1|] eqn:Hinc; simpl in H;
        [|discriminate].
      rewrite (IH _ _ H), (increment_lookup _ _ _ k Hinc).
      destruct (counts !! k) as [c|]; simpl; [|done].
      destruct (pid p =? Z.of_nat k); [|done].
      by rewrite wrap32_succ.
    + by rewrite (IH _ _ H).
Qed.

Lemma increment_range (counts counts' : list Z) (idx : Z) :
  increment counts idx = Some counts' ->
  Forall (fun c => 0 <= c < 2 ^ 32) counts ->
  Forall (fun c => 0 <= c < 2 ^ 32) counts'.
Proof.
  unfold increment. intros H Hr.
  destruct (subscript idx) as [n|]; simpl in H; [|discriminate].
  destruct (counts !! n) as [c|] eqn:Hc; simpl in H; [|discriminate].
  injection H as <-. apply Forall_insert; [exact Hr|].
  unfold wrap32. apply Z.mod_pos_bound. lia.
Qed.

Lemma count_loop_range v (ps : list particle) :
  forall counts counts' : list Z,
    cuts.count_loop v ps counts = Some counts' ->
    Forall (fun c => 0 <= c < 2 ^ 32) counts ->
    Forall (fun c => 0 <= c < 2 ^ 32) counts'.
Proof.
  induction ps as [|p rest IH]; intros counts counts' H Hr; simpl in H.
  - by injection H as <-.
  - destruct (cuts.final_state_signal v p); [|by apply (IH counts)].
    destruct (increment counts (pid p)) as [c1|] eqn:Hinc; simpl in H;
      [|discriminate].
    apply (IH c1); [exact H|]. by apply increment_range in Hinc.
Qed.

Lemma tally_le_length v (k : Z) (ps : list particle) :
  tally v k ps <= Z.of_nat (length ps).
Proof. unfold tally. pose proof (length_filter (fun p => cuts.final_state_signal v p = true /\ pid p = k) ps). lia. Qed.

(** X1.  Counter [k] of [count_primaries] is the number of particles that
    pass the particle-level cut with type code [k], reduced modulo 2^32;
    the reduction does nothing for fewer than 2^32 particles. *)
Theorem count_primaries_tally v i (counts : list Z) (k : nat)
    (Hcounts : cuts.count_primaries v i = Some counts) (Hk : (k < 5)%nat) :
  counts !! k = Some (wrap32 (tally v (Z.of_nat k) (particles i)))
  /\ (Z.of_nat (length (particles i)) < 2 ^ 32 ->
      counts !! k = Some (tally v (Z.of_nat k) (particles i))).
Proof.
  assert (Hv : counts !! k = Some (wrap32 (tally v (Z.of_nat k) (particles i)))).
  { pose proof (count_loop_lookup v (particles i) k _ _ Hcounts) as Hl.
    assert (Hr : Forall (fun c => 0 <= c < 2 ^ 32) counts).
    { apply (count_loop_range v (particles i) (replicate 5 0) counts Hcounts).
      repeat constructor; lia. }
    rewrite (lookup_replicate_2 5 0 k Hk) in Hl. simpl in Hl.
    destruct (counts !! k) as [c|] eqn:Hc; [|discriminate].
    injection Hl as Hl. rewrite Z.add_0_l in Hl. rewrite <- Hl.
    rewrite Forall_lookup in Hr. specialize (Hr k c Hc).
    unfold wrap32. by rewrite Z.mod_small. }
  split; [exact Hv|]. intros Hlen. rewrite Hv. f_equal.
  unfold wrap32. apply Z.mod_small.
  pose proof (tally_nonneg v (Z.of_nat k) (particles i)).
  pose proof (tally_le_length v (Z.of_nat k) (particles i)). lia.
Qed.

Lemma count_primaries_tally_witness :
  [0; 0; 1; 0; 2] !! 4%nat
    = Some (wrap32 (tally Reco 4 (particles samples.one_mu_two_p))).
Proof.
  refine (proj1 (count_primaries_tally Reco samples.one_mu_two_p
                   [0; 0; 1; 0; 2] 4 _ _)); [reflexivity | lia].
Defined.

(** X2.  The count is defined exactly when no particle that passes the
    particle-level cut has a negative type code: the upper end of the
    vector is never passed, the lower end is by such a particle. *)
Theorem count_primaries_defined_iff v i :
  is_Some (cuts.count_primaries v i) <->
  Forall (fun p => cuts.final_state_signal v p = true -> 0 <= pid p)
         (particles i).
Proof.
  unfold cuts.count_primaries. rewrite count_loop_defined_iff.
  split; intros H; (eapply Forall_impl; [exact H|]); intros p Hp Hf.
  - specialize (Hp Hf). lia.
  - specialize (Hp Hf). apply final_state_signal_code_le_4 in Hf.
    simpl. lia.
Qed.

(** X3.  The counters do not depend on the order of the particles. *)
Theorem count_primaries_permutation v i j
    (Hperm : particles i ≡ₚ particles j) :
  cuts.count_primaries v i = cuts.count_primaries v j.
Proof.
  assert (Hdef : is_Some (cuts.count_primaries v i)
                 <-> is_Some (cuts.count_primaries v j)).
  { rewrite !count_primaries_defined_iff. by rewrite Hperm. }
  destruct (cuts.count_primaries v i) as [c|] eqn:Hi,
    (cuts.count_primaries v j) as [c'|] eqn:Hj.
  - f_equal. apply list_eq. intros k.
    destruct (decide (k < 5)%nat) as [Hk|Hk].
    + rewrite (proj1 (count_primaries_tally v i c k Hi Hk)).
      rewrite (proj1 (count_primaries_tally v j c' k Hj Hk)).
      unfold tally. by rewrite Hperm.
    + apply count_primaries_length in Hi, Hj.
      rewrite !lookup_ge_None_2; [done | lia | lia].
  - destruct (proj1 Hdef) as [? ?]; [eauto | discriminate].
  - destruct (proj2 Hdef) as [? ?]; [eauto | discriminate].
  - reflexivity.
Qed.

Lemma count_primaries_permutation_witness :
  cuts.count_primaries Reco samples.one_mu_two_p
  = cuts.count_primaries Reco samples.two_p_one_mu.
Proof.
  apply (count_primaries_permutation Reco samples.one_mu_two_p
           samples.two_p_one_mu).
  simpl. apply perm_swap.
Defined.

End CounterValues.

(** * The topology label can be read back *)

Section LabelReadBack.

Implicit Types (v : variant) (i j : interaction) (s t : string).

Lemma string_of_uint_digits (d : Decimal.uint) :
  all_digits (NilEmpty.string_of_uint d) = true.
Proof. induction d; simpl; auto. Qed.

Lemma show_uint_all_digits (z : Z) : all_digits (show_uint z) = true.
Proof.
  unfold show_uint, NilZero.string_of_uint.
  destruct (N.to_uint (Z.to_N z)) eqn:E; try reflexivity;
    rewrite <- E; apply string_of_uint_digits.
Qed.

Lemma show_uint_inj (z z' : Z) :
  0 <= z -> 0 <= z' -> show_uint z = show_uint z' -> z = z'.
Proof.
  intros Hz Hz' H. unfold show_uint in H.
  assert (Hnn : forall n, N.to_uint n <> Decimal.Nil).
  { intros [|q]; [discriminate | apply DecimalPos.Unsigned.to_uint_nonnil]. }
  assert (Hd : Some (N.to_uint (Z.to_N z)) = Some (N.to_uint (Z.to_N z'))).
  { rewrite <- (NilZero.usu _ (Hnn (Z.to_N z))).
    rewrite <- (NilZero.usu _ (Hnn (Z.to_N z'))). by rewrite H. }
  injection Hd as Hd. apply DecimalN.Unsigned.to_uint_inj in Hd. lia.
Qed.

(** A run of digits followed by a text that starts with another character
    is split in one way only. *)
Lemma digits_then_text s s' (a a' : ascii) t t' :
  all_digits s = true -> all_digits s' = true ->
  is_digit a = false -> is_digit a' = false ->
  (s ++ String a t = s' ++ String a' t')%string ->
  s = s' /\ a = a' /\ t = t'.
Proof.
  revert s'. induction s as [|c s IH]; intros [|c' s'] Hs Hs' Ha Ha' H;
    simpl in *.
  - by injection H as -> ->.
  - injection H as -> _. apply andb_prop in Hs' as [Hc _]. congruence.
  - injection H as -> _. apply andb_prop in Hs as [Hc _]. congruence.
  - injection H as -> H.
    apply andb_prop in Hs as [_ Hs]. apply andb_prop in Hs' as [_ Hs'].
    destruct (IH s' Hs Hs' Ha Ha' H) as (-> & -> & ->). done.
Qed.

Lemma label_counters (ph e mu pi pr ph' e' mu' pi' pr' : Z) :
  Forall (fun c => 0 <= c) [ph; e; mu; pi; pr] ->
  Forall (fun c => 0 <= c) [ph'; e'; mu'; pi'; pr'] ->
  (show_uint ph ++ "ph" ++ show_uint e ++ "e" ++ show_uint mu ++ "mu"
     ++ show_uint pi ++ "pi" ++ show_uint pr ++ "p"
   = show_uint ph' ++ "ph" ++ show_uint e' ++ "e" ++ show_uint mu' ++ "mu"
     ++ show_uint pi' ++ "pi" ++ show_uint pr' ++ "p")%string ->
  [ph; e; mu; pi; pr] = [ph'; e'; mu'; pi'; pr'].
Proof.
  intros Hn Hn' H.
  repeat match goal with
    | Hf : Forall _ (_ :: _) |- _ => apply Forall_cons in Hf as [? Hf]
    end.
  simpl in H.
  apply digits_then_text in H as (E1 & _ & H);
    [|apply show_uint_all_digits..|reflexivity|reflexivity].
  injection H as H.
  apply digits_then_text in H as (E2 & _ & H);
    [|apply show_uint_all_digits..|reflexivity|reflexivity].
  apply digits_then_text in H as (E3 & _ & H);
    [|apply show_uint_all_digits..|reflexivity|reflexivity].
  injection H as H.
  apply digits_then_text in H as (E4 & _ & H);
    [|apply show_uint_all_digits..|reflexivity|reflexivity].
  injection H as H.
  apply digits_then_text in H as (E5 & _ & _);
    [|apply show_uint_all_digits..|reflexivity|reflexivity].
  apply show_uint_inj in E1, E2, E3, E4, E5; try assumption.
  by subst.
Qed.

Lemma topology_of_counters v i (ph e mu pi pr : Z) :
  cuts.count_primaries v i = Some [ph; e; mu; pi; pr] ->
  cuts.topology v i =
    Some (show_uint ph ++ "ph" ++ show_uint e ++ "e" ++ show_uint mu ++ "mu"
          ++ show_uint pi ++ "pi" ++ show_uint pr ++ "p")%string.
Proof. intros Hc. unfold cuts.topology. by rewrite Hc. Qed.

Lemma count_primaries_nonneg v i (c : list Z) :
  cuts.count_primaries v i = Some c -> Forall (fun x => 0 <= x) c.
Proof.
  intros Hc.
  eapply Forall_impl;
    [apply (count_loop_range v (particles i) (replicate 5 0) c Hc)|].
  - repeat constructor; lia.
  - simpl. intros x Hx. lia.
Qed.

(** X4.  The label determines the five counters: two interactions, of
    either variant, that get the same label have the same counters. *)
Theorem topology_label_determines_counters v v' i j (s : string)
    (Hi : cuts.topology v i = Some s) (Hj : cuts.topology v' j = Some s) :
  cuts.count_primaries v i = cuts.count_primaries v' j.
Proof.
  destruct (cuts.count_primaries v i) as [c|] eqn:Hci;
    [|unfold cuts.topology in Hi; by rewrite Hci in Hi].
  destruct (cuts.count_primaries v' j) as [c'|] eqn:Hcj;
    [|unfold cuts.topology in Hj; by rewrite Hcj in Hj].
  pose proof (count_primaries_nonneg v i c Hci) as Hn.
  pose proof (count_primaries_nonneg v' j c' Hcj) as Hn'.
  destruct (five_counters c (count_primaries_length v i c Hci))
    as (ph & e & mu & pi & pr & ->).
  destruct (five_counters c' (count_primaries_length v' j c' Hcj))
    as (ph' & e' & mu' & pi' & pr' & ->).
  rewrite (topology_of_counters v i _ _ _ _ _ Hci) in Hi.
  rewrite (topology_of_counters v' j _ _ _ _ _ Hcj) in Hj.
  f_equal. apply label_counters; [exact Hn | exact Hn' |].
  congruence.
Qed.

Lemma topology_label_determines_counters_witness :
  cuts.count_primaries Reco samples.one_mu_two_p
  = cuts.count_primaries Truth samples.two_p_one_mu.
Proof.
  apply (topology_label_determines_counters Reco Truth samples.one_mu_two_p
           samples.two_p_one_mu "0ph0e1mu0pi2p"); reflexivity.
Defined.

(** X5.  The label is defined exactly when the count is: building the
    label never leaves the vector of counters. *)
Theorem topology_defined_iff v i :
  is_Some (cuts.topology v i) <-> is_Some (cuts.count_primaries v i).
Proof.
  destruct (cuts.count_primaries v i) as [c|] eqn:Hc.
  - destruct (five_counters c (count_primaries_length v i c Hc))
      as (ph & e & mu & pi & pr & ->).
    rewrite (topology_of_counters v i _ _ _ _ _ Hc). split; eauto.
  - unfold cuts.topology. rewrite Hc. simpl. split; intros [? ?]; discriminate.
Qed.

End LabelReadBack.

(** * The flash cuts *)

Section FlashCuts.

Implicit Types (i : interaction) (x : float).

(** The upper bound of the BNB window lies below that of the NuMI
    window. *)
Lemma dle_window x : dle x 1.6 = true -> dle x 9.6 = true.
Proof.
  unfold dle. rewrite !FloatAxioms.leb_spec.
  let r := eval vm_compute in (Prim2SF 1.6%float) in
    change (Prim2SF 1.6%float) with r.
  let r := eval vm_compute in (Prim2SF 9.6%float) in
    change (Prim2SF 9.6%float) with r.
  destruct (Prim2SF x) as [s|s| |s m e]; try done.
  destruct s; [done|]. unfold SFleb, SFcompare.
  destruct (Z.compare_spec e (-52)) as [->|Hlt|Hgt].
  - done.
  - intros _. by rewrite (proj2 (Z.compare_lt_iff e (-49))) by lia.
  - done.
Qed.

(** A NaN is below or above nothing. *)
Lemma is_nan_spec x : PrimFloat.is_nan x = true -> Prim2SF x = S754_nan.
Proof.
  unfold PrimFloat.is_nan. rewrite FloatAxioms.eqb_spec.
  destruct (Prim2SF x) as [s|s| |s m e]; try (by destruct s); [done|].
  unfold SFeqb, SFcompare. rewrite Z.compare_refl.
  destruct s; simpl; by rewrite Pos.compare_cont_refl.
Qed.

Lemma dge_nan x (y : float) : PrimFloat.is_nan x = true -> dge x y = false.
Proof.
  intros Hx. unfold dge. rewrite FloatAxioms.leb_spec, (is_nan_spec x Hx).
  unfold SFleb, SFcompare. by destruct (Prim2SF y).
Qed.

(** X6.  An interaction that passes the BNB flash cut passes the NuMI
    flash cut. *)
Theorem flash_cut_bnb_numi i (Hbnb : cuts.flash_cut_bnb i = true) :
  cuts.flash_cut_numi i = true.
Proof.
  unfold cuts.flash_cut_bnb, cuts.flash_cut_numi in *.
  destruct (negb (cuts.valid_flashmatch i)); [discriminate|].
  apply andb_prop in Hbnb as [Hlo Hhi].
  by rewrite Hlo, (dle_window _ Hhi).
Qed.

Lemma flash_cut_bnb_numi_witness :
  cuts.flash_cut_numi samples.one_mu_two_p = true.
Proof.
  apply (flash_cut_bnb_numi samples.one_mu_two_p). reflexivity.
Defined.

(** X7.  The test on NaN adds nothing to the flash cuts: each of them is
    the flash-match flag together with the two comparisons of its window,
    which a NaN flash time already fails. *)
Theorem flash_cuts_without_nan_test i :
  cuts.flash_cut_bnb i
    = is_flash_matched i && (dge (flash_time i) 0 && dle (flash_time i) 1.6)
  /\ cuts.flash_cut_numi i
    = is_flash_matched i && (dge (flash_time i) 0 && dle (flash_time i) 9.6).
Proof.
  unfold cuts.flash_cut_bnb, cuts.flash_cut_numi, cuts.valid_flashmatch.
  destruct (PrimFloat.is_nan (flash_time i)) eqn:Hnan; simpl.
  - rewrite (dge_nan _ 0%float Hnan). simpl. by rewrite andb_false_r.
  - by destruct (is_flash_matched i).
Qed.

End FlashCuts.

(** * The origin of an interaction *)

Section Origin.

Implicit Types (v : variant) (i : interaction).

(** X8.  No interaction is both a neutrino and a cosmic, and the ones that
    are neither are exactly those with [nu_id] below -1. *)
Theorem neutrino_cosmic_partition i :
  cuts.neutrino i && cuts.cosmic i = false
  /\ (cuts.neutrino i = true <-> 0 <= nu_id i)
  /\ (cuts.cosmic i = true <-> nu_id i = -1)
  /\ (cuts.neutrino i || cuts.cosmic i = false <-> nu_id i < -1).
Proof.
  unfold cuts.neutrino, cuts.cosmic. rewrite Z.gtb_ltb.
  destruct (Z.ltb_spec (-1) (nu_id i)), (Z.eqb_spec (nu_id i) (-1)); simpl;
    repeat split; intros; try lia; try done.
Qed.

(** X9.  The matched variants hold for an interaction that has a match
    and the stated origin; they never hold together, and neither holds for
    an unmatched interaction or for [nu_id] below -1. *)
Theorem matched_origin i :
  (cuts.matched_neutrino i = true <-> match_ids i <> [] /\ 0 <= nu_id i)
  /\ (cuts.matched_cosmic i = true <-> match_ids i <> [] /\ nu_id i = -1)
  /\ cuts.matched_neutrino i && cuts.matched_cosmic i = false
  /\ cuts.matched_neutrino i = cuts.matched i && cuts.neutrino i
  /\ cuts.matched_cosmic i = cuts.matched i && cuts.cosmic i.
Proof.
  unfold cuts.matched_neutrino, cuts.matched_cosmic, cuts.matched,
    cuts.neutrino, cuts.cosmic.
  rewrite Z.gtb_ltb.
  destruct (match_ids i) as [|m ms]; simpl;
    destruct (Z.ltb_spec (-1) (nu_id i)), (Z.eqb_spec (nu_id i) (-1));
    repeat split; intros; try lia; try done; try (by intuition).
Qed.

End Origin.

(** * The visible energy *)

Section VisibleEnergy.

Implicit Types (v : variant) (i : interaction) (p : particle).

Lemma visible_energy_step_primary v (energy : float) p :
  is_primary p = true ->
  vars.visible_energy_step v energy p
  = add_rest_mass (pid p) (energy + kinetic_energy v p)%float.
Proof.
  intros Hp. unfold vars.visible_energy_step, add_rest_mass, kinetic_energy.
  rewrite Hp. destruct v; [reflexivity|].
  by destruct (pid p <? 2).
Qed.

Lemma visible_energy_step_secondary v (energy : float) p :
  is_primary p = false -> vars.visible_energy_step v energy p = energy.
Proof. intros Hp. unfold vars.visible_energy_step. by rewrite Hp. Qed.

(** X10.  The visible energy is accumulated over the primary particles
    only, in their order: each adds the kinetic energy that the
    particle-level cut uses for it, and a muon or a pion its rest mass on
    top.  Without a primary particle it is exactly 0. *)
Theorem visible_energy_primaries v i :
  vars.visible_energy v i
  = foldl (fun energy p =>
             add_rest_mass (pid p) (energy + kinetic_energy v p)%float)
          0%float (filter (fun p => is_primary p = true) (particles i))
  /\ (Forall (fun p => is_primary p = false) (particles i) ->
      vars.visible_energy v i = 0%float).
Proof.
  unfold vars.visible_energy. generalize 0%float as acc.
  induction (particles i) as [|p ps IH]; intros acc; simpl.
  - done.
  - rewrite filter_cons. destruct (is_primary p) eqn:Hp.
    + rewrite decide_True by done. simpl.
      rewrite (visible_energy_step_primary v acc p Hp).
      destruct (IH (add_rest_mass (pid p) (acc + kinetic_energy v p)%float))
        as [IH1 _].
      split; [exact IH1|]. intros Hall. apply Forall_cons in Hall as [Hq _].
      congruence.
    + rewrite decide_False by done.
      rewrite (visible_energy_step_secondary v acc p Hp).
      destruct (IH acc) as [IH1 IH2].
      split; [exact IH1|]. intros Hall. apply Forall_cons in Hall as [_ Hall].
      by apply IH2.
Qed.

Lemma visible_energy_primaries_witness :
  vars.visible_energy Reco
    (mkInteraction [mkParticle false 2 200 200 200] [] samples.origin
                   true true 1 true 0 0 14 0) = 0%float.
Proof.
  refine (proj2 (visible_energy_primaries Reco _) _).
  repeat constructor.
Defined.

End VisibleEnergy.

(** * Ranges and agreement of the category variables *)

Section CategoryRanges.

Implicit Types (v : variant) (i : interaction).

Lemma topology_branches_range i (ph e mu pi pr k : Z) :
  vars.topology_branches i [ph; e; mu; pi; pr] = Some k ->
  k = 2 \/ k = 4 \/ k = 6 \/ k = 7.
Proof.
  unfold vars.topology_branches, at_eq, at_gt. simpl.
  destruct (pi =? 0), (pr =? 1), (pr =? 0), (pr >? 1), (pi =? 1),
    (is_contained i), (is_fiducial i), (current_type i =? 0); simpl;
    intros [= <-]; lia.
Qed.

(** X11.  The topology category is one of 2, 4, 5, 6, 7. *)
Theorem category_topology_range v i (k : Z)
    (Hk : vars.category_topology v i = Some k) :
  k = 2 \/ k = 4 \/ k = 5 \/ k = 6 \/ k = 7.
Proof.
  unfold vars.category_topology in Hk.
  destruct (nu_id i >=? 0); [|injection Hk as <-; lia].
  destruct (cuts.count_primaries v i) as [c|] eqn:Hc; [|discriminate].
  destruct (five_counters c (count_primaries_length v i c Hc))
    as (ph & e & mu & pi & pr & ->).
  simpl in Hk. unfold at_eq in Hk. simpl in Hk.
  destruct (ph =? 0), (e =? 0), (mu =? 1); simpl in Hk;
    try (destruct (current_type i =? 0), (current_type i =? 1);
         injection Hk as <-; lia).
  apply topology_branches_range in Hk. lia.
Qed.

Lemma category_topology_range_witness :
  2 = 2 \/ 2 = 4 \/ 2 = 5 \/ 2 = 6 \/ 2 = 7.
Proof.
  apply (category_topology_range Truth samples.one_mu_two_p 2). reflexivity.
Defined.

(** X12.  The topology category is defined exactly when [nu_id] is
    negative or the count is defined: it reads the counters 0 to 4 only and
    does not count at all for a negative [nu_id]. *)
Theorem category_topology_defined_iff v i :
  is_Some (vars.category_topology v i) <->
  nu_id i < 0 \/ is_Some (cuts.count_primaries v i).
Proof.
  unfold vars.category_topology. rewrite Z.geb_leb.
  destruct (Z.leb_spec 0 (nu_id i)) as [Hnu|Hnu].
  - destruct (cuts.count_primaries v i) as [c|] eqn:Hc; simpl.
    + destruct (five_counters c (count_primaries_length v i c Hc))
        as (ph & e & mu & pi & pr & ->).
      split; [eauto|]. intros _. unfold at_eq. simpl.
      destruct (ph =? 0), (e =? 0), (mu =? 1); simpl;
        try (destruct (current_type i =? 0), (current_type i =? 1); by eauto).
      unfold vars.topology_branches, at_eq, at_gt. simpl.
      destruct (pi =? 0), (pr =? 1), (pr =? 0), (pr >? 1), (pi =? 1),
        (is_contained i), (is_fiducial i), (current_type i =? 0); simpl;
        eauto.
    + split; [intros [? ?]; discriminate|].
      intros [?|[? ?]]; [lia | discriminate].
  - split; eauto.
Qed.

(** X13.  With [nu_id] not negative, the topology category is 2 exactly
    when the five conditions of the 1muNp topology hold on the counters and
    the interaction is flagged contained and fiducial, and 7 exactly when
    the five conditions hold and one of the two flags is not set. *)
Theorem category_topology_signal_labels v i (ph e mu pi pr : Z)
    (Hnu : 0 <= nu_id i)
    (Hcounts : cuts.count_primaries v i = Some [ph; e; mu; pi; pr]) :
  (vars.category_topology v i = Some 2 <->
     five_conditions ph e mu pi pr = true
     /\ is_contained i && is_fiducial i = true)
  /\ (vars.category_topology v i = Some 7 <->
     five_conditions ph e mu pi pr = true
     /\ is_contained i && is_fiducial i = false).
Proof.
  rewrite (category_topology_counters v i _ _ _ _ _ Hnu Hcounts).
  unfold five_conditions, vars.topology_branches, at_eq, at_gt. simpl.
  rewrite Z.geb_leb, Z.gtb_ltb.
  destruct (Z.eqb_spec ph 0), (Z.eqb_spec e 0), (Z.eqb_spec mu 1),
    (Z.eqb_spec pi 0), (Z.eqb_spec pr 1), (Z.eqb_spec pr 0),
    (Z.ltb_spec 1 pr), (Z.leb_spec 1 pr), (Z.eqb_spec pi 1);
    try lia; simpl;
    destruct (is_contained i), (is_fiducial i), (current_type i =? 0),
      (current_type i =? 1); simpl;
    (split; split; first [ by intros [? ?] | done | by intros [= ?] ]).
Qed.

Lemma category_topology_signal_labels_witness :
  vars.category_topology Truth samples.one_mu_two_p_not_fiducial = Some 7.
Proof.
  refine (proj2 (proj2 (category_topology_signal_labels Truth
            samples.one_mu_two_p_not_fiducial 0 0 1 0 2 _ _)) _);
    first [ by split | simpl; lia ].
Defined.

Lemma category_interaction_mode_non_neutrino i :
  cuts.neutrino i = false -> vars.category_interaction_mode i = Some 7.
Proof.
  unfold vars.category_interaction_mode, cuts.neutrino. by intros ->.
Qed.


(** X15.  The three schemes agree on an interaction that is not a
    neutrino: the topology category is 6, the generator-mode category is
    7, and the coarse category, when it returns, is 3. *)
Theorem categories_of_non_neutrino v i (Hnu : cuts.neutrino i = false) :
  vars.category_topology v i = Some 6
  /\ vars.category_interaction_mode i = Some 7
  /\ (forall k : Z, vars.category v i = Some k -> k = 3).
Proof.
  split; [|split].
  - unfold vars.category_topology, cuts.neutrino in *.
    rewrite Z.gtb_ltb in Hnu. rewrite Z.geb_leb.
    destruct (Z.ltb_spec (-1) (nu_id i)); [discriminate|].
    by destruct (Z.leb_spec 0 (nu_id i)); [lia|].
  - by apply category_interaction_mode_non_neutrino.
  - intros k. unfold vars.category, cuts.signal_1muNp, cuts.other_nu_1muNp.
    rewrite Hnu.
    destruct (cuts.topological_1muNp_cut v i) as [[]|]; simpl; congruence.
Qed.

Lemma categories_of_non_neutrino_witness :
  vars.category_topology Truth samples.empty_unlabelled = Some 6
  /\ vars.category_interaction_mode samples.empty_unlabelled = Some 7
  /\ (forall k : Z,
        vars.category Truth samples.empty_unlabelled = Some k -> k = 3).
Proof.
  apply (categories_of_non_neutrino Truth samples.empty_unlabelled).
  reflexivity.
Defined.

(** X16.  The coarse category in terms of the counters: it returns no
    label when the five conditions of the 1muNp topology hold, and
    otherwise 2 for a neutrino and 3 for any other interaction. *)
Theorem category_of_counters v i (ph e mu pi pr : Z)
    (Hcounts : cuts.count_primaries v i = Some [ph; e; mu; pi; pr]) :
  vars.category v i =
    if five_conditions ph e mu pi pr then None
    else Some (if cuts.neutrino i then 2 else 3).
Proof.
  unfold vars.category, cuts.signal_1muNp, cuts.other_nu_1muNp.
  rewrite (topological_1muNp_cut_outcome v i _ _ _ _ _ Hcounts).
  destruct (five_conditions ph e mu pi pr); [reflexivity|]. simpl.
  by destruct (cuts.neutrino i).
Qed.

Lemma category_of_counters_witness :
  vars.category Reco samples.one_mu_one_other = Some 2.
Proof.
  apply (category_of_counters Reco samples.one_mu_one_other 0 0 1 0 0).
  reflexivity.
Defined.

End CategoryRanges.

(** * The thresholds are monotone *)

Section Monotone.

Implicit Types (v : variant) (p : particle).

Ltac order_cases :=
  repeat match goal with
    | |- context [Z.compare ?x ?y] => destruct (Z.compare_spec x y); subst
    | |- context [Pos.compare ?x ?y] => destruct (Pos.compare_spec x y); subst
    end.

(** The comparison of the specification is transitive. *)
Lemma SFltb_leb_trans (a b c : spec_float) :
  SFltb a b = true -> SFleb b c = true -> SFltb a c = true.
Proof.
  unfold SFltb, SFleb, SFcompare.
  change (Pos.compare_cont Eq) with Pos.compare.
  destruct a as [sa|sa| |sa ma ea], b as [sb|sb| |sb mb eb],
    c as [sc|sc| |sc mc ec];
    try destruct sa; try destruct sb; try destruct sc; try done;
    order_cases; simpl; try done; try lia.
Qed.

Lemma dgt_dle_trans (c e e' : float) :
  dgt e c = true -> dle e e' = true -> dgt e' c = true.
Proof.
  unfold dgt, dle. rewrite !FloatAxioms.ltb_spec, FloatAxioms.leb_spec.
  apply SFltb_leb_trans.
Qed.

(** X17.  The particle-level cut is monotone in the energy: a primary
    particle of the same type code as a passing one, with a kinetic energy
    that is not smaller, passes as well. *)
Theorem final_state_signal_monotone v p p'
    (Hpass : cuts.final_state_signal v p = true)
    (Hprimary : is_primary p' = true)
    (Hcode : pid p' = pid p)
    (Henergy : dle (kinetic_energy v p) (kinetic_energy v p') = true) :
  cuts.final_state_signal v p' = true.
Proof.
  rewrite final_state_signal_unfold in *. rewrite Hprimary, Hcode. simpl.
  apply andb_prop in Hpass as [_ Hpass].
  destruct (pid p =? 2), (pid p <? 4), (pid p =? 4); simpl in *;
    try discriminate;
    repeat match goal with
      | H : dgt (kinetic_energy v p) ?c = true |- _ =>
          rewrite (dgt_dle_trans c _ _ H Henergy); clear H
      | H : _ || _ = true |- _ => apply orb_prop in H as [H|H]
      end;
    rewrite ?orb_true_r; try done.
Qed.

Lemma final_state_signal_monotone_witness :
  cuts.final_state_signal Reco (samples.primary 4 90) = true.
Proof.
  apply (final_state_signal_monotone Reco (samples.primary 4 60)
           (samples.primary 4 90)); reflexivity.
Defined.

End Monotone.

(** * The classification cuts in terms of the counters *)

Section ClassificationCuts.

Implicit Types (v : variant) (i : interaction).

(** X18.  On counters that meet the five conditions of the 1muNp topology
    neither classification cut returns; on all other counters the signal
    cut is false and the other-neutrino cut is the neutrino flag. *)
Theorem classification_cuts_of_counters v i (ph e mu pi pr : Z)
    (Hcounts : cuts.count_primaries v i = Some [ph; e; mu; pi; pr]) :
  cuts.signal_1muNp v i
    = (if five_conditions ph e mu pi pr then None else Some false)
  /\ cuts.other_nu_1muNp v i
    = (if five_conditions ph e mu pi pr then None
       else Some (cuts.neutrino i)).
Proof.
  unfold cuts.signal_1muNp, cuts.other_nu_1muNp.
  rewrite (topological_1muNp_cut_outcome v i _ _ _ _ _ Hcounts).
  by destruct (five_conditions ph e mu pi pr).
Qed.

Lemma classification_cuts_of_counters_witness :
  cuts.signal_1muNp Reco samples.one_mu_one_other = Some false
  /\ cuts.other_nu_1muNp Reco samples.one_mu_one_other = Some true.
Proof.
  apply (classification_cuts_of_counters Reco samples.one_mu_one_other
           0 0 1 0 0).
  reflexivity.
Defined.

End ClassificationCuts.

(** * The counters add up *)

Section CounterSum.

Implicit Types (v : variant) (i : interaction) (p : particle).

Lemma tally_total v (ps : list particle) :
  Forall (fun p => cuts.final_state_signal v p = true -> 0 <= pid p) ps ->
  tally v 0 ps + tally v 1 ps + tally v 2 ps + tally v 3 ps + tally v 4 ps
  = Z.of_nat (length (filter (fun p => cuts.final_state_signal v p = true) ps)).
Proof.
  induction 1 as [|p ps Hp _ IH]; [reflexivity|].
  rewrite !tally_cons, filter_cons. case_decide as Hf.
  - pose proof (final_state_signal_code_le_4 v p Hf) as Hle.
    specialize (Hp Hf). rewrite Hf. simpl.
    destruct (Z.eqb_spec (pid p) 0), (Z.eqb_spec (pid p) 1),
      (Z.eqb_spec (pid p) 2), (Z.eqb_spec (pid p) 3),
      (Z.eqb_spec (pid p) 4); lia.
  - apply not_true_is_false in Hf. rewrite Hf. simpl. lia.
Qed.

(** X19.  For fewer than 2^32 particles the five counters add up to the
    number of particles that pass the particle-level cut: every passing
    particle is counted once, and nothing else is. *)
Theorem count_primaries_total v i (ph e mu pi pr : Z)
    (Hcounts : cuts.count_primaries v i = Some [ph; e; mu; pi; pr])
    (Hsize : Z.of_nat (length (particles i)) < 2 ^ 32) :
  ph + e + mu + pi + pr
  = Z.of_nat (length (filter (fun p => cuts.final_state_signal v p = true)
                             (particles i))).
Proof.
  assert (Hdef : is_Some (cuts.count_primaries v i)) by eauto.
  apply count_primaries_defined_iff in Hdef.
  rewrite <- (tally_total v (particles i) Hdef).
  pose proof (fun k Hk => proj2 (count_primaries_tally v i _ k Hcounts Hk) Hsize)
    as Hk.
  pose proof (Hk 0%nat ltac:(lia)) as H0.
  pose proof (Hk 1%nat ltac:(lia)) as H1.
  pose proof (Hk 2%nat ltac:(lia)) as H2.
  pose proof (Hk 3%nat ltac:(lia)) as H3.
  pose proof (Hk 4%nat ltac:(lia)) as H4.
  simpl in H0, H1, H2, H3, H4.
  injection H0 as ->. injection H1 as ->. injection H2 as ->.
  injection H3 as ->. injection H4 as ->. reflexivity.
Qed.

Lemma count_primaries_total_witness :
  0 + 0 + 1 + 0 + 0
  = Z.of_nat (length (filter
      (fun p => cuts.final_state_signal Reco p = true)
      (particles samples.one_mu_one_other))).
Proof.
  apply (count_primaries_total Reco samples.one_mu_one_other 0 0 1 0 0).
  - reflexivity.
  - simpl. lia.
Defined.

End CounterSum.
